(** * wallet-utils: stake reward and penalty arithmetic

    A shallow embedding of [src/utils/index.js] (class [Utils]) and the
    properties of its specification.

    Modelling conventions.
    - A [big-integer] instance is a [Z].  The library is not part of the
      repository.  Its instances carry the arithmetic methods [add]/[plus],
      [subtract]/[minus], [multiply]/[times] and [divide]/[over], the
      comparisons [eq] and [gt], and [shiftRight] and [and]; they carry no
      method called [mul], [div] or [sub], so a call of one of these three
      names calls [undefined] and throws a [TypeError].
    - A JavaScript number is an exact rational [Q].  The day counts the
      caller supplies are integers ([Z]); the only numbers the code derives
      from them that need not be integers are halves ([stakedDays / 2]).
      Sums and differences of day numbers below [2^52] are exact in a
      double, so for such day numbers the arithmetic of [Z] and [Q] is the
      arithmetic of the code.
    - A thrown exception is the [Throw] case of [result]. *)

From Stdlib Require Import ZArith QArith Qround Lia Lqa.
From stdpp Require Import base option list gmap strings.

Local Open Scope Z_scope.

(** ** Exceptions *)

Inductive error : Type :=
| TypeError      (* a property of [undefined] is read, or [undefined] called *)
| DivideByZero   (* big-integer: "Cannot divide by zero" *)
| NotAnInteger.  (* big-integer: a number operand with a fractional part *)

Inductive result (A : Type) : Type :=
| Ok (a : A)
| Throw (e : error).
Arguments Ok {A} a.
Arguments Throw {A} e.

#[global] Instance result_ret : MRet result := fun A a => Ok a.
#[global] Instance result_bind : MBind result := fun A B f m =>
  match m with
  | Ok a => f a
  | Throw e => Throw e
  end.

Definition returns {A} (m : result A) : Prop := exists a, m = Ok a.
Definition throws {A} (m : result A) : Prop := exists e, m = Throw e.

(** ** Values *)

Record DailyRecord : Type := mkDay {
  dayStakeSharesTotal : Z;
  dayPayoutTotal : Z
}.

Record StakeRecord : Type := mkStake {
  pooledDay : Z;
  stakedDays : Z;
  unpooledDay : Z;
  stakeShares : Z;
  stakedHearts : Z
}.

(** What a call site may pass where [calcPayoutRewards] expects the daily
    data or the share weight, and what a method is given as its operand. *)
Inductive value : Type :=
| VNumber (q : Q)
| VBig (z : Z)
| VDays (l : list DailyRecord).

Definition LATE_PENALTY_GRACE_DAYS : Z := 14.
Definition LATE_PENALTY_SCALE_DAYS : Z := 700.
Definition EARLY_PENALTY_MIN_DAYS : Z := 90.
Definition bigZero : Z := 0.

(** ** JavaScript numbers *)

Definition isInteger (q : Q) : bool := Qeq_bool q (inject_Z (Qfloor q)).

(** [a < b] on numbers. *)
Definition numLt (a b : Q) : bool := negb (Qle_bool b a).

(** ** The big-integer methods *)

(** How a big-integer method reads its operand: an instance is taken as it
    is, a number must be an integer; an array is no operand at all (no call
    site passes one). *)
Definition parseValue (v : value) : result Z :=
  match v with
  | VBig z => Ok z
  | VNumber q => if isInteger q then Ok (Qfloor q) else Throw NotAnInteger
  | VDays _ => Throw TypeError
  end.

(** The arithmetic methods of an instance, by property name; [None] is a
    name the instance has no property for. *)
Definition bigMethod (name : string) : option (Z -> Z -> result Z) :=
  if String.eqb name "add" || String.eqb name "plus" then
    Some (fun a b => Ok (a + b))
  else if String.eqb name "subtract" || String.eqb name "minus" then
    Some (fun a b => Ok (a - b))
  else if String.eqb name "multiply" || String.eqb name "times" then
    Some (fun a b => Ok (a * b))
  else if String.eqb name "divide" || String.eqb name "over" then
    Some (fun a b => if b =? 0 then Throw DivideByZero else Ok (Z.quot a b))
  else None.

(** The method call [a.name(v)]. *)
Definition bigCall (a : Z) (name : string) (v : value) : result Z :=
  match bigMethod name with
  | Some method => b ← parseValue v; method a b
  | None => Throw TypeError
  end.

(** ** Array access *)

(** [dailyData[day]] for an integer day: [None] is [undefined]. *)
Definition dayAt (l : list DailyRecord) (day : Z) : option DailyRecord :=
  if 0 <=? day then l !! Z.to_nat day else None.

(** [dailyPayoutData[day]] followed by a property read, for whatever was
    passed as [dailyPayoutData] and any number [day]: only an array has
    numbered elements, and only at integer positions. *)
Definition dayRecord (dailyPayoutData : value) (day : Q) : result DailyRecord :=
  match dailyPayoutData with
  | VDays l =>
      if isInteger day then
        match dayAt l (Qfloor day) with
        | Some r => Ok r
        | None => Throw TypeError
        end
      else Throw TypeError
  | _ => Throw TypeError
  end.

(** ** DailyDataDecoder: [processDailyRangeData] *)

(** The arrow function mapped over the raw values. *)
Definition decodeDay (asBig : Z) : DailyRecord :=
  {| dayStakeSharesTotal := Z.shiftr asBig 128;
     dayPayoutTotal := Z.land asBig 0xFFFFFFFFFFFFFFFFFFFFFFFFFFFFFFFF |}.

Definition processDailyRangeData (data : list Z) : list DailyRecord :=
  map decodeDay data.

(** ** RewardAccumulator: [calcPayoutRewards], [estimatePayoutRewardsDay] *)

(** Number of times the guard [day < endDay] holds when [day] starts at
    [beginDay] and grows by one; an omitted [endDay] is [undefined], and
    [day < undefined] is false. *)
Definition tripCount (beginDay : Q) (endDay : option Q) : nat :=
  match endDay with
  | Some e => Z.to_nat (Qceiling (e - beginDay))
  | None => O
  end.

Fixpoint payoutLoop (n : nat) (dailyPayoutData stakeShares : value)
    (day : Q) (payout : Z) : result Z :=
  match n with
  | O => Ok payout
  | S n' =>
      r ← dayRecord dailyPayoutData day;
      p ← bigCall (dayPayoutTotal r) "mul" stakeShares;
      q ← bigCall p "div" (VBig (dayStakeSharesTotal r));
      payout' ← bigCall payout "add" (VBig q);
      payoutLoop n' dailyPayoutData stakeShares (day + 1)%Q payout'
  end.

Definition calcPayoutRewards (dailyPayoutData stakeShares : value)
    (beginDay : Q) (endDay : option Q) : result Z :=
  payoutLoop (tripCount beginDay endDay) dailyPayoutData stakeShares
    beginDay bigZero.

Definition estimatePayoutRewardsDay (dailyData : list DailyRecord)
    (stakeSharesParam : Z) (sampleDay : Z) : result Z :=
  r ← dayRecord (VDays dailyData) (inject_Z sampleDay);
  p ← bigCall (dayPayoutTotal r) "mul" (VBig stakeSharesParam);
  d ← bigCall (dayStakeSharesTotal r) "add" (VBig stakeSharesParam);
  bigCall p "div" (VBig d).

(** ** PenaltyEngine: [calcLatePenalty], [calcPayoutAndEarlyPenalty] *)

(** The grace test is on numbers; [stakedDays + 14] is exact for the day
    counts a stake can have.  Past the grace window the penalty is asked of
    the stake return by the methods [mul] and [div]. *)
Definition calcLatePenalty (stakedDays unpooledDays : Z)
    (rawStakeReturn : Z) : result Z :=
  let effectiveStakedDays := stakedDays + LATE_PENALTY_GRACE_DAYS in
  if unpooledDays <=? effectiveStakedDays then Ok bigZero
  else
    p ← bigCall rawStakeReturn "mul"
          (VNumber (inject_Z (unpooledDays - effectiveStakedDays)));
    bigCall p "div" (VNumber (inject_Z LATE_PENALTY_SCALE_DAYS)).

(** Lines 64-67: [stakedDays / 2 + (stakedDays % 2)] on numbers, then the
    minimum. *)
Definition penaltyDays (stakedDays : Z) : Q :=
  let penaltyDays :=
    (inject_Z stakedDays / 2 + inject_Z (Z.rem stakedDays 2))%Q in
  if numLt penaltyDays (inject_Z EARLY_PENALTY_MIN_DAYS)
  then inject_Z EARLY_PENALTY_MIN_DAYS
  else penaltyDays.

Definition calcPayoutAndEarlyPenalty (dailyPayoutData : list DailyRecord)
    (pooledDay stakedDays servedDays : Z) (stakeShares : Z)
    : result (Z * Z) :=
  let servedEndDay := pooledDay + servedDays in
  let penaltyDays := penaltyDays stakedDays in
  if servedDays =? 0 then
    expected ← estimatePayoutRewardsDay dailyPayoutData stakeShares
                 (pooledDay - 1);
    penalty ← bigCall expected "mul" (VNumber penaltyDays);
    Ok (bigZero, penalty)
  else if numLt penaltyDays (inject_Z servedDays) then
    let penaltyEndDay := (inject_Z pooledDay + penaltyDays)%Q in
    penalty ← calcPayoutRewards (VDays dailyPayoutData) (VBig stakeShares)
                (inject_Z pooledDay) (Some penaltyEndDay);
    delta ← calcPayoutRewards (VDays dailyPayoutData) (VBig stakeShares)
              penaltyEndDay (Some (inject_Z servedEndDay));
    payout ← bigCall penalty "add" (VBig delta);
    Ok (payout, penalty)
  else
    payout ← calcPayoutRewards (VDays dailyPayoutData) (VBig stakeShares)
               (inject_Z pooledDay) (Some (inject_Z servedEndDay));
    if Qeq_bool penaltyDays (inject_Z servedDays) then Ok (payout, payout)
    else
      scaled ← bigCall payout "mul" (VNumber penaltyDays);
      penalty ← bigCall scaled "div" (VNumber (inject_Z servedDays));
      Ok (payout, penalty).

(** ** StakeReturnCalculator: [calcStakeReturn] *)

(** Lines 114-132: the raw stake return and the penalty.  On the late-exit
    path the call passes three arguments: the share weight where the daily
    data is expected, the pooled day where the share weight is expected, the
    end of the served window as [beginDay], and no [endDay]. *)
Definition stakeReturnAndPenalty (dailyData : list DailyRecord)
    (st : StakeRecord) (servedDays : Z) : result (Z * Z) :=
  if servedDays <? stakedDays st then
    '(payout, penalty) ← calcPayoutAndEarlyPenalty dailyData (pooledDay st)
                           (stakedDays st) servedDays (stakeShares st);
    stakeReturn ← bigCall (stakedHearts st) "add" (VBig payout);
    Ok (stakeReturn, penalty)
  else
    payout ← calcPayoutRewards (VBig (stakeShares st))
               (VNumber (inject_Z (pooledDay st)))
               (inject_Z (pooledDay st + servedDays)) None;
    stakeReturn ← bigCall (stakedHearts st) "add" (VBig payout);
    penalty ← calcLatePenalty (stakedDays st)
                (unpooledDay st - pooledDay st) stakeReturn;
    Ok (stakeReturn, penalty).

(** Lines 133-143: the penalty is taken out of the stake return, which is
    not allowed to go below zero. *)
Definition applyPenalty (stakeReturn penalty : Z) : result Z :=
  if negb (bigZero =? penalty) then
    if penalty >? stakeReturn then Ok bigZero
    else bigCall stakeReturn "sub" (VBig penalty)
  else Ok stakeReturn.

Definition calcStakeReturn (dailyData : list DailyRecord)
    (st : StakeRecord) (servedDays : Z) : result Z :=
  '(stakeReturn, penalty) ← stakeReturnAndPenalty dailyData st servedDays;
  applyPenalty stakeReturn penalty.

(** ** Interface filtering: [extractSimplifiedApi] *)

Section Api.
(** The field lists of a descriptor ([item.inputs], [item.outputs]) are
    passed through untouched. *)
Context {F : Type}.

(** [type] is [None] when the descriptor has no tag. *)
Record AbiItem : Type := mkItem {
  type : option string;
  name : string;
  inputs : F;
  outputs : F
}.

Record EventEntry : Type := mkEvent { fields : F }.
Record FunctionEntry : Type := mkFunction { fn_inputs : F; fn_outputs : F }.

(** The two result objects: [events] and [functions] are their own
    properties, [eventsProto] and [functionsProto] the object each one was
    given as its prototype, if any. *)
Record SimplifiedApi : Type := mkApi {
  events : gmap string EventEntry;
  functions : gmap string FunctionEntry;
  eventsProto : option EventEntry;
  functionsProto : option FunctionEntry
}.

(** [target[key] = v] on a plain object: every key becomes a property of
    the object, except [__proto__], which changes the object's prototype
    to [v] and adds no property. *)
Definition assign {A} (key : string) (v : A)
    (target : gmap string A * option A) : gmap string A * option A :=
  if String.eqb key "__proto__" then (target.1, Some v)
  else (<[key := v]> target.1, target.2).

(** [!relevant || relevant.indexOf(n) > -1]: [None] is an absent
    (undefined or null) allow-list. *)
Definition relevant (allow : option (list string)) (n : string) : bool :=
  match allow with
  | None => true
  | Some l => bool_decide (n ∈ l)
  end.

Definition hasType (item : AbiItem) (tag : string) : bool :=
  bool_decide (type item = Some tag).

(** The body of the callback given to [abi.map]. *)
Definition addItem (relevantEvents relevantFunctions : option (list string))
    (obj : SimplifiedApi) (item : AbiItem) : SimplifiedApi :=
  if hasType item "event" && relevant relevantEvents (name item) then
    let target := assign (name item) (mkEvent (inputs item))
                    (events obj, eventsProto obj) in
    mkApi target.1 (functions obj) target.2 (functionsProto obj)
  else if hasType item "function"
          && relevant relevantFunctions (name item) then
    let target := assign (name item)
                    (mkFunction (inputs item) (outputs item))
                    (functions obj, functionsProto obj) in
    mkApi (events obj) target.1 (eventsProto obj) target.2
  else obj.

Definition emptyApi : SimplifiedApi := mkApi ∅ ∅ None None.

Definition extractSimplifiedApi (abi : list AbiItem)
    (relevantEvents relevantFunctions : option (list string))
    : SimplifiedApi :=
  fold_left (addItem relevantEvents relevantFunctions) abi emptyApi.

(** A descriptor the filter can use at all. *)
Definition tagged (item : AbiItem) : bool :=
  hasType item "event" || hasType item "function".
End Api.
Arguments AbiItem F : clear implicits.
Arguments EventEntry F : clear implicits.
Arguments FunctionEntry F : clear implicits.
Arguments SimplifiedApi F : clear implicits.

(** ** Notions of the specification *)

(** The window as the specification words it. *)
Definition penaltyWindow (stakedDays : Z) : Z :=
  Z.max (Qceiling (inject_Z stakedDays / 2)) EARLY_PENALTY_MIN_DAYS.

(** The day counts for which lines 64-67 give a whole number of days. *)
Definition wholeWindow (stakedDays : Z) : Prop :=
  Z.even stakedDays = true \/ stakedDays < 179.

(** A day the accumulator is meant to use: it has a record, and the record's
    share total is not zero. *)
Definition validDay (l : list DailyRecord) (d : Z) : Prop :=
  exists r, dayAt l d = Some r /\ dayStakeSharesTotal r <> 0.

(** A packed daily value: share total in the high bits, payout total in the
    low 128 bits. *)
Definition packDay (shares payout : Z) : Z :=
  Z.lor (Z.shiftl shares 128) payout.

(** A day number or day count a stake can have: sums and differences of two
    of them are exact in a double. *)
Definition dayNumber (d : Z) : Prop := 0 <= d < 2 ^ 52.

(** * Properties *)

(** ** Numbers *)





Lemma numLt_iff (a b : Q) : numLt a b = true <-> (a < b)%Q.
Proof.
  unfold numLt. rewrite negb_true_iff. split.
  - intros H. apply Qnot_le_lt. intros Hle.
    apply Qle_bool_iff in Hle. congruence.
  - intros H. destruct (Qle_bool b a) eqn:E; [|reflexivity].
    apply Qle_bool_iff in E. exfalso. exact (Qlt_not_le _ _ H E).
Qed.



(** ** The loop of [calcPayoutRewards] *)

Lemma tripCount_inject_Z (b e : Z) :
  tripCount (inject_Z b) (Some (inject_Z e)) = Z.to_nat (e - b).
Proof.
  unfold tripCount, Qminus. rewrite <- inject_Z_opp, <- inject_Z_plus.
  rewrite Qceiling_Z. f_equal.
Qed.

(** The trip count is the number of iterations of the source loop: the guard
    [day < endDay] holds at the [i]-th value of [day] exactly for the first
    [tripCount] values of [i]. *)
Lemma tripCount_guard (b e : Q) (i : nat) :
  numLt (b + inject_Z (Z.of_nat i)) e = true <->
  (i < tripCount b (Some e))%nat.
Proof.
  rewrite numLt_iff. unfold tripCount.
  pose proof (Qle_ceiling (e - b)) as Hle.
  pose proof (Qceiling_lt (e - b)) as Hlt.
  set (c := Qceiling (e - b)) in *.
  split.
  - intros H.
    assert (Hq : (inject_Z (Z.of_nat i) < inject_Z c)%Q).
    { revert H Hle. generalize (inject_Z (Z.of_nat i)), (inject_Z c).
      intros x y H Hle. lra. }
    rewrite <- Zlt_Qlt in Hq. lia.
  - intros H.
    assert (Hz : Z.of_nat i <= c - 1) by lia.
    rewrite Zle_Qle in Hz. revert Hz Hlt.
    generalize (inject_Z (Z.of_nat i)), (inject_Z (c - 1)).
    intros x y Hz Hlt. lra.
Qed.

(** ** DailyDataDecoder *)

Lemma processDailyRangeData_lookup (raws : list Z) (i : nat) :
  processDailyRangeData raws !! i = decodeDay <$> raws !! i.
Proof.
  unfold processDailyRangeData. revert i.
  induction raws as [|x raws IH]; intros [|i]; cbn; auto.
Qed.

Lemma repack_bits (r : Z) :
  Z.lor (Z.shiftl (Z.shiftr r 128) 128) (Z.land r (Z.ones 128)) = r.
Proof.
  apply Z.bits_inj'. intros n Hn.
  rewrite Z.lor_spec, Z.land_spec, Z.shiftl_spec by exact Hn.
  destruct (Z.lt_ge_cases n 128) as [Hlo|Hhi].
  - rewrite Z.testbit_neg_r by lia.
    rewrite Z.ones_spec_low by lia. cbn. apply andb_true_r.
  - rewrite Z.shiftr_spec by lia.
    rewrite Z.ones_spec_high by lia.
    rewrite andb_false_r, orb_false_r. f_equal. lia.
Qed.

(** C6: for every raw value [0 <= r < 2^256] the decoder yields
    [dayStakeSharesTotal = r >> 128] and [dayPayoutTotal = r & (2^128 - 1)],
    both below [2^128], and repacking them,
    [(dayStakeSharesTotal << 128) | dayPayoutTotal], gives [r] back;
    [processDailyRangeData] keeps the length and the order of its input and
    decodes it element by element. *)
Theorem decodeDay_roundtrip (r : Z) :
  0 <= r < 2 ^ 256 ->
  dayStakeSharesTotal (decodeDay r) = Z.shiftr r 128 /\
  dayPayoutTotal (decodeDay r) = Z.land r (2 ^ 128 - 1) /\
  Z.lor (Z.shiftl (dayStakeSharesTotal (decodeDay r)) 128)
        (dayPayoutTotal (decodeDay r)) = r /\
  0 <= dayStakeSharesTotal (decodeDay r) < 2 ^ 128 /\
  0 <= dayPayoutTotal (decodeDay r) < 2 ^ 128 /\
  forall raws : list Z,
    length (processDailyRangeData raws) = length raws /\
    forall i : nat, processDailyRangeData raws !! i = decodeDay <$> raws !! i.
Proof.
  intros Hr.
  assert (Hmask : 0xFFFFFFFFFFFFFFFFFFFFFFFFFFFFFFFF = Z.ones 128)
    by reflexivity.
  assert (Hones : 2 ^ 128 - 1 = Z.ones 128) by reflexivity.
  unfold decodeDay. cbn [dayStakeSharesTotal dayPayoutTotal].
  rewrite Hmask, Hones.
  split; [reflexivity|]. split; [reflexivity|].
  split; [apply repack_bits|].
  split; [|split].
  - rewrite Z.shiftr_div_pow2 by lia. split.
    + apply Z.div_pos; lia.
    + apply Z.div_lt_upper_bound; [lia|].
      rewrite <- Z.pow_add_r by lia. exact (proj2 Hr).
  - rewrite Z.land_ones by lia. apply Z.mod_pos_bound. lia.
  - intros raws. split.
    + unfold processDailyRangeData. apply length_map.
    + apply processDailyRangeData_lookup.
Qed.

Lemma decodeDay_roundtrip_witness :
  dayStakeSharesTotal (decodeDay (5 * 2 ^ 128 + 7)) = 5 /\
  dayPayoutTotal (decodeDay (5 * 2 ^ 128 + 7)) = 7 /\
  processDailyRangeData [5 * 2 ^ 128 + 7; 3] = [mkDay 5 7; mkDay 0 3].
Proof.
  destruct (decodeDay_roundtrip (5 * 2 ^ 128 + 7)) as (Hs & Hp & _);
    [split; [apply Z.leb_le | apply Z.ltb_lt]; reflexivity|].
  split; [rewrite Hs; reflexivity|].
  split; [rewrite Hp; reflexivity|reflexivity].
Defined.

(** ** PenaltyEngine: the early-penalty window *)

Lemma Qceiling_unique (x : Q) (c : Z) :
  (inject_Z (c - 1) < x)%Q -> (x <= inject_Z c)%Q -> Qceiling x = c.
Proof.
  intros Hlo Hhi.
  pose proof (Qle_ceiling x) as Hle.
  pose proof (Qceiling_lt x) as Hlt.
  assert (H1 : (inject_Z (Qceiling x - 1) < inject_Z c)%Q)
    by (eapply Qlt_le_trans; eassumption).
  assert (H2 : (inject_Z (c - 1) < inject_Z (Qceiling x))%Q)
    by (eapply Qlt_le_trans; eassumption).
  rewrite <- Zlt_Qlt in H1, H2. lia.
Qed.










(** C3 at [stakedDays = 179]: the specification's window is
    [max(ceil(179 / 2), 90) = 90] days, the window the code computes is
    [179 / 2 + 179 % 2 = 90.5], which is not even an integer. *)
Theorem penaltyDays_179 :
  penaltyWindow 179 = 90 /\
  (penaltyDays 179 == 181 # 2)%Q /\
  ~ (penaltyDays 179 == inject_Z (penaltyWindow 179))%Q /\
  isInteger (penaltyDays 179) = false.
Proof.
  split; [reflexivity|]. split; [reflexivity|].
  split; [|reflexivity].
  intros H. apply Qeq_bool_iff in H. discriminate H.
Qed.

Lemma penaltyDays_min (sd : Z) : (90 <= penaltyDays sd)%Q.
Proof.
  unfold penaltyDays, EARLY_PENALTY_MIN_DAYS.
  destruct (numLt _ _) eqn:E; [apply Qle_refl|].
  apply Qnot_lt_le. intros H. apply numLt_iff in H.
  change 90%Q with (inject_Z 90) in H. congruence.
Qed.

(** ** What the method calls of the code do *)

Lemma bigCall_add (a b : Z) : bigCall a "add" (VBig b) = Ok (a + b).
Proof. reflexivity. Qed.

Lemma bigCall_mul (a : Z) (v : value) : bigCall a "mul" v = Throw TypeError.
Proof. reflexivity. Qed.

Lemma bigCall_div_sub (a : Z) (v : value) :
  bigCall a "div" v = Throw TypeError /\
  bigCall a "sub" v = Throw TypeError.
Proof. split; reflexivity. Qed.

Lemma dayRecord_TypeError (v : value) (q : Q) (e : error) :
  dayRecord v q = Throw e -> e = TypeError.
Proof.
  destruct v as [x|z|l]; cbn; try (intros [= <-]; reflexivity).
  destruct (isInteger q); [|intros [= <-]; reflexivity].
  destruct (dayAt l (Qfloor q)); [discriminate|intros [= <-]; reflexivity].
Qed.

(** One turn of the loop never completes: the element read is [undefined],
    or its [dayPayoutTotal] is asked for a method [mul] it does not have. *)
Lemma payoutLoop_turn (n : nat) (v s : value) (day : Q) (acc : Z) :
  payoutLoop (S n) v s day acc = Throw TypeError.
Proof.
  cbn [payoutLoop].
  destruct (dayRecord v day) as [r|e] eqn:Hr.
  - cbn [mbind result_bind]. rewrite bigCall_mul. reflexivity.
  - apply dayRecord_TypeError in Hr. subst e. reflexivity.
Qed.

Lemma calcPayoutRewards_runs (v s : value) (b e : Q) :
  (b < e)%Q -> calcPayoutRewards v s b (Some e) = Throw TypeError.
Proof.
  intros Hlt. unfold calcPayoutRewards.
  assert (Hn : (0 < tripCount b (Some e))%nat).
  { apply tripCount_guard, numLt_iff. change (inject_Z (Z.of_nat 0)) with 0%Q.
    rewrite Qplus_0_r. exact Hlt. }
  destruct (tripCount b (Some e)) as [|n]; [lia|].
  apply payoutLoop_turn.
Qed.

Lemma calcPayoutRewards_skips (v s : value) (b e : Q) :
  (e <= b)%Q -> calcPayoutRewards v s b (Some e) = Ok 0.
Proof.
  intros Hle. unfold calcPayoutRewards.
  destruct (tripCount b (Some e)) as [|n] eqn:Hn; [reflexivity|].
  exfalso.
  assert (H : (0 < tripCount b (Some e))%nat) by lia.
  apply tripCount_guard, numLt_iff in H.
  change (inject_Z (Z.of_nat 0)) with 0%Q in H. rewrite Qplus_0_r in H.
  exact (Qlt_not_le _ _ H Hle).
Qed.

Lemma estimatePayoutRewardsDay_TypeError (l : list DailyRecord) (s d : Z) :
  estimatePayoutRewardsDay l s d = Throw TypeError.
Proof.
  unfold estimatePayoutRewardsDay.
  destruct (dayRecord (VDays l) (inject_Z d)) as [r|e] eqn:Hr.
  - cbn [mbind result_bind]. rewrite bigCall_mul. reflexivity.
  - apply dayRecord_TypeError in Hr. subst e. reflexivity.
Qed.

(** No path of the early penalty gets past its first multiplication or its
    first day. *)
Lemma calcPayoutAndEarlyPenalty_TypeError (l : list DailyRecord)
    (pooled sd served s : Z) :
  calcPayoutAndEarlyPenalty l pooled sd served s = Throw TypeError.
Proof.
  unfold calcPayoutAndEarlyPenalty.
  pose proof (penaltyDays_min sd) as Hmin.
  destruct (served =? 0) eqn:E0.
  { rewrite estimatePayoutRewardsDay_TypeError. reflexivity. }
  destruct (numLt (penaltyDays sd) (inject_Z served)) eqn:Elt.
  { rewrite (calcPayoutRewards_runs _ _ (inject_Z pooled)); [reflexivity|].
    revert Hmin. generalize (penaltyDays sd), (inject_Z pooled).
    intros p q Hp. lra. }
  destruct (Z.lt_ge_cases 0 served) as [Hpos|Hneg].
  { rewrite calcPayoutRewards_runs; [reflexivity|].
    rewrite <- Zlt_Qlt. lia. }
  rewrite calcPayoutRewards_skips by (rewrite <- Zle_Qle; lia).
  cbn [mbind result_bind].
  destruct (Qeq_bool (penaltyDays sd) (inject_Z served)) eqn:Eeq.
  { exfalso. apply Qeq_bool_iff in Eeq.
    assert (Hs : (inject_Z served <= inject_Z 0)%Q)
      by (rewrite <- Zle_Qle; lia).
    revert Hmin Eeq Hs. generalize (penaltyDays sd), (inject_Z served).
    intros p q Hp Hpq Hq. change (inject_Z 0) with 0%Q in Hq. lra. }
  rewrite bigCall_mul. reflexivity.
Qed.

(** In particular, with a window that is not whole every path of the early
    penalty throws. *)
Lemma calcPayoutAndEarlyPenalty_fractional (l : list DailyRecord)
    (pooled sd served s : Z) :
  0 <= sd -> ~ wholeWindow sd ->
  throws (calcPayoutAndEarlyPenalty l pooled sd served s).
Proof.
  intros _ _. exists TypeError. apply calcPayoutAndEarlyPenalty_TypeError.
Qed.

Lemma calcStakeReturn_early_TypeError (l : list DailyRecord)
    (st : StakeRecord) (served : Z) :
  served < stakedDays st -> calcStakeReturn l st served = Throw TypeError.
Proof.
  intros Hlt. unfold calcStakeReturn, stakeReturnAndPenalty.
  apply Z.ltb_lt in Hlt.
  rewrite Hlt, calcPayoutAndEarlyPenalty_TypeError. reflexivity.
Qed.

(** On the late-exit path no day is ever read: the accumulator is entered
    without an [endDay], its loop does not run, and the payout is zero. *)
Lemma stakeReturnAndPenalty_late (dailyData : list DailyRecord)
    (st : StakeRecord) (servedDays : Z) :
  stakedDays st <= servedDays ->
  stakeReturnAndPenalty dailyData st servedDays =
  penalty ← calcLatePenalty (stakedDays st) (unpooledDay st - pooledDay st)
              (stakedHearts st);
  Ok (stakedHearts st, penalty).
Proof.
  intros H. unfold stakeReturnAndPenalty.
  assert (Hf : (servedDays <? stakedDays st) = false) by (apply Z.ltb_ge, H).
  rewrite Hf. cbn [calcPayoutRewards tripCount payoutLoop mbind result_bind].
  rewrite bigCall_add. unfold bigZero. rewrite Z.add_0_r. reflexivity.
Qed.

Lemma calcLatePenalty_grace (sd u x : Z) :
  u <= sd + 14 -> calcLatePenalty sd u x = Ok 0.
Proof.
  intros H. unfold calcLatePenalty, LATE_PENALTY_GRACE_DAYS.
  apply Z.leb_le in H. rewrite H. reflexivity.
Qed.

Lemma calcLatePenalty_late (sd u x : Z) :
  sd + 14 < u -> calcLatePenalty sd u x = Throw TypeError.
Proof.
  intros H. unfold calcLatePenalty, LATE_PENALTY_GRACE_DAYS.
  apply Z.leb_gt in H. rewrite H, bigCall_mul. reflexivity.
Qed.

(** ** The claims on the arithmetic *)

(** C1 at Scenario A: the loop over the served day [[0, 1)] has one turn,
    but the late-exit call of [calcStakeReturn] passes neither the daily
    data nor an end day, so its loop has none: the payout added to the
    principal is zero and the stake return is 0, where the specification
    has [100 * 500 / 1000 = 50]. *)
Theorem calcStakeReturn_scenarioA :
  tripCount (inject_Z 0) (Some (inject_Z (0 + 1))) = 1%nat /\
  tripCount (inject_Z (0 + 1)) None = 0%nat /\
  stakeReturnAndPenalty [mkDay 1000 100] (mkStake 0 1 10 500 0) 1
    = Ok (0, 0) /\
  calcStakeReturn [mkDay 1000 100] (mkStake 0 1 10 500 0) 1 = Ok 0 /\
  100 * 500 / 1000 = 50.
Proof. repeat split. Qed.

(** C2 at Scenario B: a stake of 5000 that never served.  The specification
    has the result [stakedHearts + 0]; the code asks the day's payout total
    for a method [mul], which a big-integer instance does not have, so the
    early penalty and the stake return both throw.  An early
    exit that served 95 of 100 days throws in the same way. *)
Theorem early_exit_scenarioB :
  calcPayoutAndEarlyPenalty [mkDay 1000 100] 1 1 0 500 = Throw TypeError /\
  calcStakeReturn [mkDay 1000 100] (mkStake 1 1 10 500 5000) 0
    = Throw TypeError /\
  calcStakeReturn (replicate 100 (mkDay 1000 100))
    (mkStake 0 100 95 500 5000) 95 = Throw TypeError.
Proof.
  split; [apply calcPayoutAndEarlyPenalty_TypeError|].
  split; apply calcStakeReturn_early_TypeError; cbn; lia.
Qed.

(** C4 as stated fails: with [beginDay > endDay] the accumulator returns
    zero and throws nothing. *)
Lemma calcPayoutRewards_reversed_range :
  3 < 5 /\
  calcPayoutRewards (VDays [mkDay 1000 100]) (VBig 500) 5 (Some 3%Q) = Ok 0 /\
  ~ throws (calcPayoutRewards (VDays [mkDay 1000 100]) (VBig 500) 5
              (Some 3%Q)).
Proof.
  split; [lia|]. split; [reflexivity|].
  intros [e He]. discriminate He.
Qed.

(** C4 as amended: over integer days the accumulator returns zero, without
    reading any data, when [endDay <= beginDay]; when the range
    [[beginDay, endDay)] holds a day that has no record or whose share total
    is zero, the call throws and returns no value, and it throws a
    [TypeError] when it is the first day that has no record. *)
Theorem calcPayoutRewards_errors (l : list DailyRecord) (s b e : Z) :
  (e <= b ->
   calcPayoutRewards (VDays l) (VBig s) (inject_Z b) (Some (inject_Z e))
     = Ok 0) /\
  (b < e -> dayAt l b = None ->
   calcPayoutRewards (VDays l) (VBig s) (inject_Z b) (Some (inject_Z e))
     = Throw TypeError) /\
  ((exists d, b <= d < e /\ ~ validDay l d) ->
   throws (calcPayoutRewards (VDays l) (VBig s) (inject_Z b)
             (Some (inject_Z e)))).
Proof.
  split; [|split].
  - intros Hle. apply calcPayoutRewards_skips. rewrite <- Zle_Qle. exact Hle.
  - intros Hlt _. apply calcPayoutRewards_runs. rewrite <- Zlt_Qlt. exact Hlt.
  - intros (d & Hd & _). exists TypeError.
    apply calcPayoutRewards_runs. rewrite <- Zlt_Qlt. lia.
Qed.

Lemma calcPayoutRewards_errors_witness :
  calcPayoutRewards (VDays [mkDay 1000 100]) (VBig 500) 1 (Some 0%Q) = Ok 0 /\
  calcPayoutRewards (VDays [mkDay 1000 100]) (VBig 500) 1 (Some 2%Q)
    = Throw TypeError /\
  throws (calcPayoutRewards (VDays [mkDay 1000 100; mkDay 0 5]) (VBig 500) 0
            (Some 2%Q)).
Proof.
  split; [|split].
  - apply (calcPayoutRewards_errors [mkDay 1000 100] 500 1 0). lia.
  - apply (calcPayoutRewards_errors [mkDay 1000 100] 500 1 2);
      [lia | reflexivity].
  - apply (calcPayoutRewards_errors [mkDay 1000 100; mkDay 0 5] 500 0 2).
    exists 1. split; [lia|].
    intros (r & Hr & Hnz). cbv in Hr. injection Hr as <-. apply Hnz.
    reflexivity.
Defined.

(** C5 at Scenario C and beside it: a full-term stake of 1000 that exits
    715 days after it was pooled, 700 days past the grace window, should be
    returned 0, and one that exits 15 days past the window
    [1000 - 1000 * 15 / 700 = 979]; in both cases the late penalty asks the
    stake return for a method [mul] it does not have, and [calcStakeReturn]
    throws instead of returning an amount.  So does every early exit, here
    one that served 95 of 100 days. *)
Theorem calcStakeReturn_scenarioC :
  calcLatePenalty 1 (715 - 0) 1000 = Throw TypeError /\
  calcStakeReturn [mkDay 1000 100] (mkStake 0 1 715 500 1000) 1
    = Throw TypeError /\
  calcStakeReturn [mkDay 1000 100] (mkStake 0 1 30 500 1000) 1
    = Throw TypeError /\
  calcStakeReturn (replicate 100 (mkDay 1000 100))
    (mkStake 0 100 95 500 5000) 95 = Throw TypeError.
Proof.
  split; [reflexivity|]. split; [reflexivity|]. split; [reflexivity|].
  apply calcStakeReturn_early_TypeError. cbn. lia.
Qed.

(** C7 at three usable days: the accumulations over [[0, 1)], [[1, 3)] and
    [[0, 3)] should return 50, 5237 and their sum; each of them throws on
    the first day of its range, where [dayPayoutTotal.mul] is called. *)
Theorem accumulate_scenario_throws :
  100 * 500 / 1000 = 50 /\
  50 * 500 / 7 + 10 * 500 / 3 = 5237 /\
  calcPayoutRewards (VDays [mkDay 1000 100; mkDay 7 50; mkDay 3 10])
    (VBig 500) 0 (Some 1%Q) = Throw TypeError /\
  calcPayoutRewards (VDays [mkDay 1000 100; mkDay 7 50; mkDay 3 10])
    (VBig 500) 1 (Some 3%Q) = Throw TypeError /\
  calcPayoutRewards (VDays [mkDay 1000 100; mkDay 7 50; mkDay 3 10])
    (VBig 500) 0 (Some 3%Q) = Throw TypeError.
Proof. repeat split. Qed.

(** C8 at four exits of a one-day stake: inside the grace window
    ([unpooledDays] 10, and 15, its last day) the late penalty is 0; one day
    past it, and 700 days past it, the penalty should be
    [700 * 1 / 700 = 1] and [50 * 700 / 700 = 50], and the code throws,
    because the stake return has no method [mul]. *)
Theorem calcLatePenalty_scenarios :
  calcLatePenalty 1 10 50 = Ok 0 /\
  calcLatePenalty 1 15 50 = Ok 0 /\
  calcLatePenalty 1 16 700 = Throw TypeError /\
  calcLatePenalty 1 715 50 = Throw TypeError.
Proof. repeat split. Qed.

(** C9 at Scenario B: for a stake of 500 shares that never served, with the
    day before it was pooled at 1000 shares and 100 payout, the estimate
    should be [100 * 500 / (1000 + 500) = 33] and the early penalty
    [33 * 90]; the estimate throws at [dayPayoutTotal.mul], and so does
    [calcPayoutAndEarlyPenalty]. *)
Theorem never_served_scenario_throws :
  100 * 500 / (1000 + 500) = 33 /\
  dayAt [mkDay 1000 100] (1 - 1) = Some (mkDay 1000 100) /\
  estimatePayoutRewardsDay [mkDay 1000 100] 500 (1 - 1) = Throw TypeError /\
  calcPayoutAndEarlyPenalty [mkDay 1000 100] 1 1 0 500 = Throw TypeError.
Proof. repeat split. Qed.

(** ** Interface filtering *)

Section ApiProperties.
Context {F : Type}.
Implicit Types (abi : list (AbiItem F)) (item : AbiItem F).
Implicit Types (obj : SimplifiedApi F) (allow : option (list string)).

Lemma assign_own {A} (key : string) (v : A) (t : gmap string A * option A) :
  (assign key v t).1 =
  if decide (key = "__proto__") then t.1 else <[key := v]> t.1.
Proof.
  unfold assign. destruct (String.eqb_spec key "__proto__") as [->|Hne].
  - rewrite decide_True by reflexivity. reflexivity.
  - rewrite decide_False by exact Hne. reflexivity.
Qed.

Lemma relevant_empty (n : string) : relevant (Some []) n = false.
Proof. apply bool_decide_eq_false_2, not_elem_of_nil. Qed.

Lemma hasType_function_not_event item :
  hasType item "function" = true -> hasType item "event" = false.
Proof.
  unfold hasType. intros H. apply bool_decide_eq_true_1 in H.
  apply bool_decide_eq_false_2. rewrite H. discriminate.
Qed.

(** What one descriptor does to the own properties of the two objects. *)
Lemma addItem_events re rf obj item :
  events (addItem re rf obj item) =
  if hasType item "event" && relevant re (name item)
     && negb (bool_decide (name item = "__proto__"))
  then <[name item := mkEvent (inputs item)]> (events obj)
  else events obj.
Proof.
  unfold addItem.
  destruct (hasType item "event" && relevant re (name item)).
  - cbn [events andb]. rewrite assign_own. cbn [fst].
    case_decide as Hp.
    + rewrite bool_decide_eq_true_2 by exact Hp. reflexivity.
    + rewrite bool_decide_eq_false_2 by exact Hp. reflexivity.
  - cbn [andb]. destruct (_ && _); reflexivity.
Qed.

Lemma addItem_functions re rf obj item :
  functions (addItem re rf obj item) =
  if hasType item "function" && relevant rf (name item)
     && negb (bool_decide (name item = "__proto__"))
  then <[name item := mkFunction (inputs item) (outputs item)]>
         (functions obj)
  else functions obj.
Proof.
  unfold addItem.
  destruct (hasType item "function") eqn:Hf.
  - rewrite (hasType_function_not_event _ Hf). cbn [andb].
    destruct (relevant rf (name item)); [|reflexivity].
    cbn [functions andb]. rewrite assign_own. cbn [fst].
    case_decide as Hp.
    + rewrite bool_decide_eq_true_2 by exact Hp. reflexivity.
    + rewrite bool_decide_eq_false_2 by exact Hp. reflexivity.
  - cbn [andb]. destruct (_ && _); reflexivity.
Qed.

Lemma addItem_untagged re rf obj item :
  tagged item = false -> addItem re rf obj item = obj.
Proof.
  unfold tagged, addItem. intros H. apply orb_false_elim in H.
  destruct H as [-> ->]. reflexivity.
Qed.

Lemma fold_events_empty_allow rf abi :
  forall obj,
    events (fold_left (addItem (Some []) rf) abi obj) = events obj.
Proof.
  induction abi as [|item abi IH]; intros obj; [reflexivity|].
  cbn [fold_left]. rewrite IH, addItem_events.
  rewrite relevant_empty, andb_false_r. reflexivity.
Qed.

Lemma fold_functions_empty_allow re abi :
  forall obj,
    functions (fold_left (addItem re (Some [])) abi obj) = functions obj.
Proof.
  induction abi as [|item abi IH]; intros obj; [reflexivity|].
  cbn [fold_left]. rewrite IH, addItem_functions.
  rewrite relevant_empty, andb_false_r. reflexivity.
Qed.

Lemma fold_filter_tagged re rf abi :
  forall obj,
    fold_left (addItem re rf) abi obj =
    fold_left (addItem re rf) (List.filter tagged abi) obj.
Proof.
  induction abi as [|item abi IH]; intros obj; [reflexivity|].
  cbn [fold_left List.filter].
  destruct (tagged item) eqn:E.
  - cbn [fold_left]. apply IH.
  - rewrite addItem_untagged by exact E. apply IH.
Qed.

Lemma fold_events_origin re rf abi :
  forall obj k e,
    events (fold_left (addItem re rf) abi obj) !! k = Some e ->
    events obj !! k = Some e \/
    exists item, item ∈ abi /\ type item = Some "event" /\
                 name item = k /\ relevant re k = true /\
                 k <> "__proto__" /\ e = mkEvent (inputs item).
Proof.
  induction abi as [|item abi IH]; intros obj k e H; [left; exact H|].
  cbn [fold_left] in H. apply IH in H. destruct H as [H|H].
  - rewrite addItem_events in H.
    destruct (hasType item "event") eqn:Et; [|left; exact H].
    destruct (relevant re (name item)) eqn:Er; [|left; exact H].
    destruct (bool_decide (name item = "__proto__")) eqn:Ep; [left; exact H|].
    cbn [andb negb] in H. apply bool_decide_eq_false_1 in Ep.
    destruct (decide (name item = k)) as [Hk|Hk].
    + rewrite Hk, lookup_insert_eq in H. injection H as <-.
      right. exists item. rewrite <- Hk.
      split; [apply list_elem_of_here|].
      split; [exact (bool_decide_eq_true_1 _ Et)|]. auto.
    + rewrite lookup_insert_ne in H by exact Hk. left. exact H.
  - destruct H as (it & Hin & Hrest). right. exists it.
    split; [apply list_elem_of_further, Hin | exact Hrest].
Qed.

Lemma fold_functions_origin re rf abi :
  forall obj k e,
    functions (fold_left (addItem re rf) abi obj) !! k = Some e ->
    functions obj !! k = Some e \/
    exists item, item ∈ abi /\ type item = Some "function" /\
                 name item = k /\ relevant rf k = true /\
                 k <> "__proto__" /\
                 e = mkFunction (inputs item) (outputs item).
Proof.
  induction abi as [|item abi IH]; intros obj k e H; [left; exact H|].
  cbn [fold_left] in H. apply IH in H. destruct H as [H|H].
  - rewrite addItem_functions in H.
    destruct (hasType item "function") eqn:Et; [|left; exact H].
    destruct (relevant rf (name item)) eqn:Er; [|left; exact H].
    destruct (bool_decide (name item = "__proto__")) eqn:Ep; [left; exact H|].
    cbn [andb negb] in H. apply bool_decide_eq_false_1 in Ep.
    destruct (decide (name item = k)) as [Hk|Hk].
    + rewrite Hk, lookup_insert_eq in H. injection H as <-.
      right. exists item. rewrite <- Hk.
      split; [apply list_elem_of_here|].
      split; [exact (bool_decide_eq_true_1 _ Et)|]. auto.
    + rewrite lookup_insert_ne in H by exact Hk. left. exact H.
  - destruct H as (it & Hin & Hrest). right. exists it.
    split; [apply list_elem_of_further, Hin | exact Hrest].
Qed.

Lemma addItem_events_keep re rf obj item (k : string) :
  is_Some (events obj !! k) ->
  is_Some (events (addItem re rf obj item) !! k).
Proof.
  intros H. rewrite addItem_events. destruct (_ && _); [|exact H].
  rewrite lookup_insert. case_decide; [eauto | exact H].
Qed.

Lemma addItem_functions_keep re rf obj item (k : string) :
  is_Some (functions obj !! k) ->
  is_Some (functions (addItem re rf obj item) !! k).
Proof.
  intros H. rewrite addItem_functions. destruct (_ && _); [|exact H].
  rewrite lookup_insert. case_decide; [eauto | exact H].
Qed.

Lemma fold_events_keep re rf abi (k : string) :
  forall obj,
    is_Some (events obj !! k) ->
    is_Some (events (fold_left (addItem re rf) abi obj) !! k).
Proof.
  induction abi as [|item abi IH]; intros obj H; [exact H|].
  cbn [fold_left]. apply IH, addItem_events_keep, H.
Qed.

Lemma fold_functions_keep re rf abi (k : string) :
  forall obj,
    is_Some (functions obj !! k) ->
    is_Some (functions (fold_left (addItem re rf) abi obj) !! k).
Proof.
  induction abi as [|item abi IH]; intros obj H; [exact H|].
  cbn [fold_left]. apply IH, addItem_functions_keep, H.
Qed.

Lemma fold_events_included re rf abi item :
  forall obj,
    item ∈ abi -> type item = Some "event" ->
    relevant re (name item) = true -> name item <> "__proto__" ->
    is_Some (events (fold_left (addItem re rf) abi obj) !! name item).
Proof.
  induction abi as [|it abi IH]; intros obj Hin Ht Hr Hp.
  - apply elem_of_nil in Hin. contradiction.
  - apply elem_of_cons in Hin. destruct Hin as [<-|Hin].
    + cbn [fold_left]. apply fold_events_keep. rewrite addItem_events.
      unfold hasType.
      rewrite (bool_decide_eq_true_2 _ Ht), Hr.
      rewrite (bool_decide_eq_false_2 _ Hp).
      cbn [andb negb]. rewrite lookup_insert_eq. eauto.
    + cbn [fold_left]. apply IH; assumption.
Qed.

Lemma fold_functions_included re rf abi item :
  forall obj,
    item ∈ abi -> type item = Some "function" ->
    relevant rf (name item) = true -> name item <> "__proto__" ->
    is_Some (functions (fold_left (addItem re rf) abi obj) !! name item).
Proof.
  induction abi as [|it abi IH]; intros obj Hin Ht Hr Hp.
  - apply elem_of_nil in Hin. contradiction.
  - apply elem_of_cons in Hin. destruct Hin as [<-|Hin].
    + cbn [fold_left]. apply fold_functions_keep. rewrite addItem_functions.
      unfold hasType.
      rewrite (bool_decide_eq_true_2 _ Ht), Hr.
      rewrite (bool_decide_eq_false_2 _ Hp).
      cbn [andb negb]. rewrite lookup_insert_eq. eauto.
    + cbn [fold_left]. apply IH; assumption.
Qed.

(** C10: an empty allow-list for events (for functions) gives an empty
    events (functions) mapping, whereas an absent one lets every
    descriptor tagged [event] ([function]) in, under its name -- save the
    name [__proto__], which is no property of either mapping; a descriptor
    whose tag is missing or is neither [event] nor [function] has no effect
    on the result, whatever the allow-lists, and every entry of either
    mapping comes from a descriptor carrying that mapping's tag. *)
Theorem extractSimplifiedApi_filter abi re rf :
  events (extractSimplifiedApi abi (Some []) rf) = ∅ /\
  functions (extractSimplifiedApi abi re (Some [])) = ∅ /\
  (forall item, item ∈ abi -> type item = Some "event" ->
     name item <> "__proto__" ->
     is_Some (events (extractSimplifiedApi abi None rf) !! name item)) /\
  (forall item, item ∈ abi -> type item = Some "function" ->
     name item <> "__proto__" ->
     is_Some (functions (extractSimplifiedApi abi re None) !! name item)) /\
  events (extractSimplifiedApi abi re rf) !! "__proto__" = None /\
  functions (extractSimplifiedApi abi re rf) !! "__proto__" = None /\
  extractSimplifiedApi abi re rf
    = extractSimplifiedApi (List.filter tagged abi) re rf /\
  (forall item, tagged item = false ->
     extractSimplifiedApi (item :: abi) re rf
       = extractSimplifiedApi abi re rf) /\
  (forall k e, events (extractSimplifiedApi abi re rf) !! k = Some e ->
     exists item, item ∈ abi /\ type item = Some "event" /\
                  name item = k /\ e = mkEvent (inputs item)) /\
  (forall k e, functions (extractSimplifiedApi abi re rf) !! k = Some e ->
     exists item, item ∈ abi /\ type item = Some "function" /\
                  name item = k /\
                  e = mkFunction (inputs item) (outputs item)).
Proof.
  unfold extractSimplifiedApi. repeat apply conj.
  - apply fold_events_empty_allow.
  - apply fold_functions_empty_allow.
  - intros item Hin Ht Hp. apply fold_events_included; auto.
  - intros item Hin Ht Hp. apply fold_functions_included; auto.
  - destruct (events (fold_left _ abi emptyApi) !! "__proto__")
      as [e|] eqn:H; [|reflexivity].
    apply fold_events_origin in H.
    destruct H as [H|(item & _ & _ & _ & _ & Hp & _)]; [|congruence].
    cbn [events emptyApi] in H. rewrite lookup_empty in H. discriminate.
  - destruct (functions (fold_left _ abi emptyApi) !! "__proto__")
      as [e|] eqn:H; [|reflexivity].
    apply fold_functions_origin in H.
    destruct H as [H|(item & _ & _ & _ & _ & Hp & _)]; [|congruence].
    cbn [functions emptyApi] in H. rewrite lookup_empty in H. discriminate.
  - apply fold_filter_tagged.
  - intros item Ht. cbn [fold_left].
    rewrite addItem_untagged by exact Ht. reflexivity.
  - intros k e H. apply fold_events_origin in H.
    destruct H as [H|(item & Hin & Ht & Hn & _ & _ & He)].
    + cbn [events emptyApi] in H. rewrite lookup_empty in H. discriminate.
    + eauto 6.
  - intros k e H. apply fold_functions_origin in H.
    destruct H as [H|(item & Hin & Ht & Hn & _ & _ & He)].
    + cbn [functions emptyApi] in H. rewrite lookup_empty in H.
      discriminate.
    + eauto 6.
Qed.
End ApiProperties.

Lemma extractSimplifiedApi_filter_witness :
  is_Some (events (extractSimplifiedApi
                     [mkItem (Some "event") "Transfer" [1%nat] [];
                      mkItem (Some "constructor") "Transfer" [] [];
                      mkItem None "f" [] []]
                     None (Some ["f"])) !! "Transfer") /\
  extractSimplifiedApi
    [mkItem None "f" [2%nat] []; mkItem (Some "function") "f" [] []]
    None None
  = extractSimplifiedApi [mkItem (Some "function") "f" [] []] None None.
Proof.
  destruct (extractSimplifiedApi_filter
              [mkItem (Some "event") "Transfer" [1%nat] [];
               mkItem (Some "constructor") "Transfer" [] [];
               mkItem None "f" [] []]
              None (Some ["f"])) as (_ & _ & Hev & _).
  destruct (extractSimplifiedApi_filter
              [mkItem (Some "function") "f" ([] : list nat) []] None None)
    as (_ & _ & _ & _ & _ & _ & _ & Hun & _).
  split.
  - apply (Hev (mkItem (Some "event") "Transfer" [1%nat] [])).
    + apply list_elem_of_here.
    + reflexivity.
    + discriminate.
  - apply (Hun (mkItem None "f" [2%nat] [])). reflexivity.
Defined.

(** * Further properties of the code *)

(** ** DailyDataDecoder *)

(** X1: decoding a packed value gives back what was packed: for any share
    total and a payout total below [2^128], the record decoded from
    [(shares << 128) | payout] holds exactly these two totals; and with an
    unsigned share total below [2^128] the packed value is a 256-bit one. *)
Theorem decodeDay_packDay (shares payout : Z) :
  0 <= payout < 2 ^ 128 ->
  decodeDay (packDay shares payout) = mkDay shares payout /\
  (0 <= shares < 2 ^ 128 -> 0 <= packDay shares payout < 2 ^ 256).
Proof.
  intros Hp.
  assert (Hmask : 0xFFFFFFFFFFFFFFFFFFFFFFFFFFFFFFFF = Z.ones 128)
    by reflexivity.
  assert (Hhi : Z.shiftr (packDay shares payout) 128 = shares).
  { unfold packDay. rewrite Z.shiftr_lor, Z.shiftr_shiftl_l by lia.
    rewrite Z.sub_diag, Z.shiftl_0_r, Z.shiftr_div_pow2 by lia.
    rewrite Z.div_small by lia. apply Z.lor_0_r. }
  assert (Hlo : Z.land (packDay shares payout) (Z.ones 128) = payout).
  { unfold packDay. rewrite Z.land_lor_distr_l, !Z.land_ones by lia.
    rewrite Z.shiftl_mul_pow2, Z.mod_mul by lia.
    rewrite Z.mod_small by lia. apply Z.lor_0_l. }
  split.
  - unfold decodeDay. rewrite Hmask, Hhi, Hlo. reflexivity.
  - intros Hs.
    assert (Hdisj : Z.land (shares * 2 ^ 128) payout = 0).
    { apply Z.bits_inj'. intros n Hn.
      rewrite Z.land_spec, Z.bits_0.
      destruct (Z.lt_ge_cases n 128).
      - rewrite Z.mul_pow2_bits_low by lia. reflexivity.
      - rewrite (Z.bits_above_log2 payout n); [apply andb_false_r|lia|].
        destruct (Z.eq_dec payout 0) as [->|]; [cbn; lia|].
        apply Z.lt_le_trans with 128; [|lia].
        apply Z.log2_lt_pow2; lia. }
    assert (Hadd : packDay shares payout = shares * 2 ^ 128 + payout).
    { unfold packDay. rewrite Z.shiftl_mul_pow2 by lia.
      rewrite <- Z.lxor_lor, <- Z.add_nocarry_lxor by exact Hdisj.
      reflexivity. }
    rewrite Hadd.
    assert (H256 : 2 ^ 256 = 2 ^ 128 * 2 ^ 128)
      by (rewrite <- Z.pow_add_r by lia; reflexivity).
    rewrite H256. nia.
Qed.

Lemma decodeDay_packDay_witness :
  decodeDay (packDay 1000 100) = mkDay 1000 100 /\
  0 <= packDay 1000 100 < 2 ^ 256.
Proof.
  destruct (decodeDay_packDay 1000 100) as [Hd Hb];
    [split; [apply Z.leb_le | apply Z.ltb_lt]; reflexivity|].
  split; [exact Hd|].
  apply Hb. split; [apply Z.leb_le | apply Z.ltb_lt]; reflexivity.
Defined.

(** X2: decoding loses nothing: two raw values with the same decoded record
    are the same value, and two raw sequences with the same decoded sequence
    are the same sequence. *)
Theorem decodeDay_injective :
  (forall r1 r2 : Z, decodeDay r1 = decodeDay r2 -> r1 = r2) /\
  (forall raws1 raws2 : list Z,
     processDailyRangeData raws1 = processDailyRangeData raws2 ->
     raws1 = raws2).
Proof.
  assert (Hinj : forall r1 r2 : Z, decodeDay r1 = decodeDay r2 -> r1 = r2).
  { intros r1 r2 H.
    rewrite <- (repack_bits r1), <- (repack_bits r2).
    unfold decodeDay in H. injection H as Hs Hp.
    change 0xFFFFFFFFFFFFFFFFFFFFFFFFFFFFFFFF with (Z.ones 128) in Hp.
    rewrite Hs, Hp. reflexivity. }
  split; [exact Hinj|].
  unfold processDailyRangeData.
  induction raws1 as [|x xs IH]; intros [|y ys] H; try discriminate.
  - reflexivity.
  - cbn [map] in H.
    remember (decodeDay x) as dx eqn:Hx. remember (decodeDay y) as dy eqn:Hy.
    injection H as Hh Ht. subst dx dy.
    f_equal; [apply Hinj, Hh | apply IH, Ht].
Qed.

(** ** RewardAccumulator *)

(** X6: a range that starts at a fractional day and is not empty cannot be
    accumulated: whatever the data and the share weight, the first element
    read is [undefined] and the call throws a [TypeError]. *)
Theorem calcPayoutRewards_fractional_begin (v s : value) (b e : Q) :
  isInteger b = false -> (b < e)%Q ->
  calcPayoutRewards v s b (Some e) = Throw TypeError.
Proof.
  intros _ Hlt. apply calcPayoutRewards_runs, Hlt.
Qed.

Lemma calcPayoutRewards_fractional_begin_witness :
  calcPayoutRewards (VDays [mkDay 1000 100; mkDay 7 50]) (VBig 500)
    (1 # 2) (Some 1%Q) = Throw TypeError.
Proof.
  apply calcPayoutRewards_fractional_begin; reflexivity.
Defined.

Lemma Qceiling_minus_Z (e : Q) (b : Z) :
  Qceiling (e - inject_Z b) = Qceiling e - b.
Proof.
  apply Qceiling_unique.
  - pose proof (Qceiling_lt e) as H.
    replace (Qceiling e - b - 1) with ((Qceiling e - 1) + - b) by lia.
    rewrite inject_Z_plus, inject_Z_opp. revert H.
    generalize (inject_Z (Qceiling e - 1)), (inject_Z b). intros x y H. lra.
  - pose proof (Qle_ceiling e) as H.
    replace (Qceiling e - b) with (Qceiling e + - b) by lia.
    rewrite inject_Z_plus, inject_Z_opp. revert H.
    generalize (inject_Z (Qceiling e)), (inject_Z b). intros x y H. lra.
Qed.

(** X7: from an integer [beginDay], a fractional [endDay] counts as the next
    integer: the loop runs for every integer day below it, so the call is
    the one with [endDay] rounded up. *)
Theorem calcPayoutRewards_fractional_end (v s : value) (b : Z) (e : Q) :
  calcPayoutRewards v s (inject_Z b) (Some e) =
  calcPayoutRewards v s (inject_Z b) (Some (inject_Z (Qceiling e))).
Proof.
  unfold calcPayoutRewards. f_equal.
  rewrite tripCount_inject_Z. unfold tripCount.
  rewrite Qceiling_minus_Z. reflexivity.
Qed.

(** X23: whatever is passed as data and as share weight, the accumulator
    returns zero when [endDay <= beginDay] and throws a [TypeError] when
    [beginDay < endDay]: the first turn of its loop reads an element that
    is [undefined], or calls [mul] on a day's payout total, which has no
    such method. *)
Theorem calcPayoutRewards_empty_or_throws (v s : value) (b e : Q) :
  ((e <= b)%Q -> calcPayoutRewards v s b (Some e) = Ok 0) /\
  ((b < e)%Q -> calcPayoutRewards v s b (Some e) = Throw TypeError).
Proof.
  split; [apply calcPayoutRewards_skips | apply calcPayoutRewards_runs].
Qed.

Lemma calcPayoutRewards_empty_or_throws_witness :
  calcPayoutRewards (VDays [mkDay 1000 100]) (VBig 500) 1 (Some 1%Q) = Ok 0 /\
  calcPayoutRewards (VDays [mkDay 1000 100]) (VBig 500) 0 (Some 1%Q)
    = Throw TypeError.
Proof.
  split.
  - apply (calcPayoutRewards_empty_or_throws
             (VDays [mkDay 1000 100]) (VBig 500) 1 1). apply Qle_refl.
  - apply (calcPayoutRewards_empty_or_throws
             (VDays [mkDay 1000 100]) (VBig 500) 0 1). reflexivity.
Defined.

(** X9: a stake that never served is estimated on the day before it was
    pooled, so when that day has no record -- the stake was pooled on day 0,
    or later than one day past the data -- the estimate, the early penalty
    and the stake return all throw a [TypeError], whatever the committed
    days, the shares and the principal. *)
Theorem never_served_no_record_throws (l : list DailyRecord)
    (st : StakeRecord) :
  0 < stakedDays st ->
  pooledDay st <= 0 \/ Z.of_nat (length l) < pooledDay st ->
  estimatePayoutRewardsDay l (stakeShares st) (pooledDay st - 1)
    = Throw TypeError /\
  calcPayoutAndEarlyPenalty l (pooledDay st) (stakedDays st) 0
    (stakeShares st) = Throw TypeError /\
  calcStakeReturn l st 0 = Throw TypeError.
Proof.
  intros Hsd Hrange.
  split; [apply estimatePayoutRewardsDay_TypeError|].
  split; [apply calcPayoutAndEarlyPenalty_TypeError|].
  apply calcStakeReturn_early_TypeError, Hsd.
Qed.

Lemma never_served_no_record_throws_witness :
  calcStakeReturn [mkDay 1000 100] (mkStake 0 10 20 500 5000) 0
    = Throw TypeError.
Proof.
  apply (never_served_no_record_throws [mkDay 1000 100]
           (mkStake 0 10 20 500 5000)); cbn; lia.
Defined.

(** ** StakeReturnCalculator *)

(** X11: for day numbers a stake can have, a late exit
    ([servedDays >= stakedDays]) inside the grace window
    ([unpooledDay - pooledDay <= stakedDays + 14]) is returned its
    principal, whatever the daily data, the shares and the days served; a
    late exit past the grace window throws a [TypeError], because the late
    penalty calls [mul] on the stake return. *)
Theorem calcStakeReturn_late_exit (l : list DailyRecord) (st : StakeRecord)
    (served : Z) :
  dayNumber (pooledDay st) -> dayNumber (stakedDays st) ->
  dayNumber (unpooledDay st) ->
  stakedDays st <= served ->
  (unpooledDay st - pooledDay st <= stakedDays st + 14 ->
   calcStakeReturn l st served = Ok (stakedHearts st)) /\
  (stakedDays st + 14 < unpooledDay st - pooledDay st ->
   calcStakeReturn l st served = Throw TypeError).
Proof.
  intros _ _ _ Hlate. unfold calcStakeReturn.
  rewrite stakeReturnAndPenalty_late by exact Hlate. split; intros H.
  - rewrite calcLatePenalty_grace by exact H. reflexivity.
  - rewrite calcLatePenalty_late by exact H. reflexivity.
Qed.

Lemma calcStakeReturn_late_exit_witness :
  calcStakeReturn [] (mkStake 0 1 10 500 1000) 1 = Ok 1000 /\
  calcStakeReturn [mkDay 1000 100] (mkStake 0 1 365 500 1000) 1
    = Throw TypeError.
Proof.
  assert (Hday : forall d, 0 <= d < 1000 -> dayNumber d).
  { intros d Hd. unfold dayNumber. split; [lia|].
    apply Z.lt_trans with 1000; [lia|]. apply Z.ltb_lt. reflexivity. }
  split.
  - apply (calcStakeReturn_late_exit [] (mkStake 0 1 10 500 1000) 1);
      try (apply Hday; cbn; lia); cbn; lia.
  - apply (calcStakeReturn_late_exit [mkDay 1000 100]
             (mkStake 0 1 365 500 1000) 1);
      try (apply Hday; cbn; lia); cbn; lia.
Defined.

(** X24: for day numbers a stake can have, every early exit
    ([servedDays < stakedDays]) throws a [TypeError], whatever the daily
    data, the shares and the principal: the estimate and the accumulator
    call [mul] on a day's payout total, or read a day that has no record. *)
Theorem calcStakeReturn_early_exit_throws (l : list DailyRecord)
    (st : StakeRecord) (served : Z) :
  dayNumber (pooledDay st) -> dayNumber (stakedDays st) ->
  0 <= served < stakedDays st ->
  calcPayoutAndEarlyPenalty l (pooledDay st) (stakedDays st) served
    (stakeShares st) = Throw TypeError /\
  calcStakeReturn l st served = Throw TypeError.
Proof.
  intros _ _ Hserved.
  split; [apply calcPayoutAndEarlyPenalty_TypeError|].
  apply calcStakeReturn_early_TypeError. lia.
Qed.

Lemma calcStakeReturn_early_exit_throws_witness :
  calcPayoutAndEarlyPenalty (replicate 100 (mkDay 1000 100)) 0 100 30 500
    = Throw TypeError /\
  calcStakeReturn (replicate 100 (mkDay 1000 100))
    (mkStake 0 100 30 500 5000) 30 = Throw TypeError.
Proof.
  assert (Hday : forall d, 0 <= d < 1000 -> dayNumber d).
  { intros d Hd. unfold dayNumber. split; [lia|].
    apply Z.lt_trans with 1000; [lia|]. apply Z.ltb_lt. reflexivity. }
  apply (calcStakeReturn_early_exit_throws
           (replicate 100 (mkDay 1000 100)) (mkStake 0 100 30 500 5000) 30);
    try (apply Hday; cbn; lia); cbn; lia.
Defined.





(** ** Interface filtering *)

Section ApiFurther.
Context {F : Type}.
Implicit Types (abi : list (AbiItem F)) (item : AbiItem F).
Implicit Types (obj : SimplifiedApi F) (allow : option (list string)).

Lemma addItem_events_indep re rf rf' obj1 obj2 item :
  events obj1 = events obj2 ->
  events (addItem re rf obj1 item) = events (addItem re rf' obj2 item).
Proof. intros H. rewrite !addItem_events, H. reflexivity. Qed.

Lemma addItem_functions_indep re re' rf obj1 obj2 item :
  functions obj1 = functions obj2 ->
  functions (addItem re rf obj1 item)
    = functions (addItem re' rf obj2 item).
Proof. intros H. rewrite !addItem_functions, H. reflexivity. Qed.

Lemma fold_events_indep re rf rf' abi :
  forall obj1 obj2,
    events obj1 = events obj2 ->
    events (fold_left (addItem re rf) abi obj1)
      = events (fold_left (addItem re rf') abi obj2).
Proof.
  induction abi as [|item abi IH]; intros obj1 obj2 H; [exact H|].
  cbn [fold_left]. apply IH, addItem_events_indep, H.
Qed.

Lemma fold_functions_indep re re' rf abi :
  forall obj1 obj2,
    functions obj1 = functions obj2 ->
    functions (fold_left (addItem re rf) abi obj1)
      = functions (fold_left (addItem re' rf) abi obj2).
Proof.
  induction abi as [|item abi IH]; intros obj1 obj2 H; [exact H|].
  cbn [fold_left]. apply IH, addItem_functions_indep, H.
Qed.

(** X19: the two allow-lists act independently: the events mapping does not
    depend on the allow-list for functions, nor the functions mapping on
    the allow-list for events. *)
Theorem extractSimplifiedApi_independent abi re re' rf rf' :
  events (extractSimplifiedApi abi re rf)
    = events (extractSimplifiedApi abi re rf') /\
  functions (extractSimplifiedApi abi re rf)
    = functions (extractSimplifiedApi abi re' rf).
Proof.
  unfold extractSimplifiedApi. split.
  - apply fold_events_indep. reflexivity.
  - apply fold_functions_indep. reflexivity.
Qed.

(** X20: the names of the events mapping are exactly the names, other than
    [__proto__], of the descriptors tagged [event] that the events
    allow-list lets in, and the names of the functions mapping exactly
    those, other than [__proto__], of the descriptors tagged [function]
    that the functions allow-list lets in. *)
Theorem extractSimplifiedApi_names abi re rf (k : string) :
  (is_Some (events (extractSimplifiedApi abi re rf) !! k) <->
   k <> "__proto__" /\
   exists item, item ∈ abi /\ type item = Some "event" /\
                name item = k /\ relevant re k = true) /\
  (is_Some (functions (extractSimplifiedApi abi re rf) !! k) <->
   k <> "__proto__" /\
   exists item, item ∈ abi /\ type item = Some "function" /\
                name item = k /\ relevant rf k = true).
Proof.
  unfold extractSimplifiedApi. split; split.
  - intros [e He]. apply fold_events_origin in He.
    destruct He as [He|(item & Hin & Ht & Hn & Hr & Hp & _)].
    + cbn [events emptyApi] in He. rewrite lookup_empty in He.
      discriminate.
    + eauto 6.
  - intros (Hp & item & Hin & Ht & <- & Hr).
    apply fold_events_included; assumption.
  - intros [e He]. apply fold_functions_origin in He.
    destruct He as [He|(item & Hin & Ht & Hn & Hr & Hp & _)].
    + cbn [functions emptyApi] in He. rewrite lookup_empty in He.
      discriminate.
    + eauto 6.
  - intros (Hp & item & Hin & Ht & <- & Hr).
    apply fold_functions_included; assumption.
Qed.

Lemma addItem_events_union re rf obj item :
  events (addItem re rf obj item)
    = events (addItem re rf emptyApi item) ∪ events obj.
Proof.
  rewrite !addItem_events. destruct (_ && _); cbn [events emptyApi].
  - rewrite insert_empty. apply insert_union_singleton_l.
  - symmetry. apply (left_id_L ∅ (∪)).
Qed.

Lemma addItem_functions_union re rf obj item :
  functions (addItem re rf obj item)
    = functions (addItem re rf emptyApi item) ∪ functions obj.
Proof.
  rewrite !addItem_functions. destruct (_ && _); cbn [functions emptyApi].
  - rewrite insert_empty. apply insert_union_singleton_l.
  - symmetry. apply (left_id_L ∅ (∪)).
Qed.

Lemma fold_events_union re rf abi :
  forall obj,
    events (fold_left (addItem re rf) abi obj)
      = events (fold_left (addItem re rf) abi emptyApi) ∪ events obj.
Proof.
  induction abi as [|item abi IH]; intros obj; cbn [fold_left].
  - cbn [events emptyApi]. symmetry. apply (left_id_L ∅ (∪)).
  - rewrite (IH (addItem re rf obj item)).
    rewrite (IH (addItem re rf emptyApi item)).
    rewrite addItem_events_union. apply (assoc_L (∪)).
Qed.

Lemma fold_functions_union re rf abi :
  forall obj,
    functions (fold_left (addItem re rf) abi obj)
      = functions (fold_left (addItem re rf) abi emptyApi)
        ∪ functions obj.
Proof.
  induction abi as [|item abi IH]; intros obj; cbn [fold_left].
  - cbn [functions emptyApi]. symmetry. apply (left_id_L ∅ (∪)).
  - rewrite (IH (addItem re rf obj item)).
    rewrite (IH (addItem re rf emptyApi item)).
    rewrite addItem_functions_union. apply (assoc_L (∪)).
Qed.

(** X21: descriptors are taken in order and a later one replaces an earlier
    one of the same name: the result for a list followed by another is the
    result for the second list, completed by the entries of the first list
    whose names the second does not define. *)
Theorem extractSimplifiedApi_app abi1 abi2 re rf :
  events (extractSimplifiedApi (abi1 ++ abi2) re rf)
    = events (extractSimplifiedApi abi2 re rf)
      ∪ events (extractSimplifiedApi abi1 re rf) /\
  functions (extractSimplifiedApi (abi1 ++ abi2) re rf)
    = functions (extractSimplifiedApi abi2 re rf)
      ∪ functions (extractSimplifiedApi abi1 re rf).
Proof.
  unfold extractSimplifiedApi. rewrite fold_left_app. split.
  - apply fold_events_union.
  - apply fold_functions_union.
Qed.

Lemma addItem_events_filter (l : list string) rf obj1 obj2 item :
  events obj1 = filter (fun kv => kv.1 ∈ l) (events obj2) ->
  events (addItem (Some l) rf obj1 item)
    = filter (fun kv => kv.1 ∈ l) (events (addItem None rf obj2 item)).
Proof.
  intros H. rewrite !addItem_events. unfold relevant.
  destruct (hasType item "event"); cbn [andb]; [|exact H].
  destruct (bool_decide (name item = "__proto__")); cbn [negb];
    [rewrite andb_false_r; exact H|].
  rewrite andb_true_r.
  destruct (bool_decide (name item ∈ l)) eqn:Hin.
  - apply bool_decide_eq_true_1 in Hin.
    rewrite map_filter_insert_True by exact Hin. rewrite H. reflexivity.
  - apply bool_decide_eq_false_1 in Hin.
    rewrite map_filter_insert_not by (intros y; exact Hin). exact H.
Qed.

Lemma addItem_functions_filter (l : list string) re obj1 obj2 item :
  functions obj1 = filter (fun kv => kv.1 ∈ l) (functions obj2) ->
  functions (addItem re (Some l) obj1 item)
    = filter (fun kv => kv.1 ∈ l) (functions (addItem re None obj2 item)).
Proof.
  intros H. rewrite !addItem_functions. unfold relevant.
  destruct (hasType item "function"); cbn [andb]; [|exact H].
  destruct (bool_decide (name item = "__proto__")); cbn [negb];
    [rewrite andb_false_r; exact H|].
  rewrite andb_true_r.
  destruct (bool_decide (name item ∈ l)) eqn:Hin.
  - apply bool_decide_eq_true_1 in Hin.
    rewrite map_filter_insert_True by exact Hin. rewrite H. reflexivity.
  - apply bool_decide_eq_false_1 in Hin.
    rewrite map_filter_insert_not by (intros y; exact Hin). exact H.
Qed.

(** X22: an allow-list only selects: the mapping obtained with an
    allow-list is the mapping obtained without one, restricted to the names
    on the list, for events and for functions alike. *)
Theorem extractSimplifiedApi_allow_restricts abi (l : list string) re rf :
  events (extractSimplifiedApi abi (Some l) rf)
    = filter (fun kv => kv.1 ∈ l)
        (events (extractSimplifiedApi abi None rf)) /\
  functions (extractSimplifiedApi abi re (Some l))
    = filter (fun kv => kv.1 ∈ l)
        (functions (extractSimplifiedApi abi re None)).
Proof.
  unfold extractSimplifiedApi. split.
  - assert (H0 : events (emptyApi (F:=F))
                 = filter (fun kv => kv.1 ∈ l) (events (emptyApi (F:=F))))
      by (cbn [events emptyApi]; rewrite map_filter_empty; reflexivity).
    revert H0. generalize (emptyApi (F:=F)) at 1 3.
    generalize (emptyApi (F:=F)).
    induction abi as [|item abi IH]; intros o2 o1 H; [exact H|].
    cbn [fold_left]. apply IH, addItem_events_filter, H.
  - assert (H0 : functions (emptyApi (F:=F))
                 = filter (fun kv => kv.1 ∈ l)
                     (functions (emptyApi (F:=F))))
      by (cbn [functions emptyApi]; rewrite map_filter_empty; reflexivity).
    revert H0. generalize (emptyApi (F:=F)) at 1 3.
    generalize (emptyApi (F:=F)).
    induction abi as [|item abi IH]; intros o2 o1 H; [exact H|].
    cbn [fold_left]. apply IH, addItem_functions_filter, H.
Qed.
End ApiFurther.
